(** * minitorch.datasets: labelled 2D point sets

    A shallow embedding of [minitorch/datasets.py].  Python [int] is [Z],
    Python [float] is the kernel's binary64 [float], exceptions are an
    explicit result type, and the process-wide random source is an explicit
    state threaded through every generator. *)

From Stdlib Require Import String ZArith List Bool Lia Floats.
Import ListNotations.

Set Warnings "-inexact-float".
Local Open Scope Z_scope.

(** ** The part of the Python runtime the module relies on *)

Module Py.

(** The exceptions these functions can raise. *)
Inductive exn : Type :=
| ZeroDivisionError
| OverflowError
| KeyError (key : string).

(** Python's class hierarchy puts [KeyError] under [LookupError];
    [ZeroDivisionError] and [OverflowError] are [ArithmeticError]s. *)
Definition is_LookupError (e : exn) : bool :=
  match e with
  | KeyError _ => true
  | ZeroDivisionError | OverflowError => false
  end.

Inductive outcome (A : Type) : Type :=
| Return (a : A)
| Raise (e : exn).
Arguments Return {A} a.
Arguments Raise {A} e.

(** The random source: the sequence of values [random.random()] is going
    to hand out.  Every behaviour of the global generator is one such
    sequence. *)
Definition RNG : Type := nat -> float.

(** A computation reads and advances the random source and either returns
    or raises. *)
Definition M (A : Type) : Type := RNG -> outcome A * RNG.

Definition ret {A} (a : A) : M A := fun g => (Return a, g).

Definition raise {A} (e : exn) : M A := fun g => (Raise e, g).

Definition bind {A B} (c : M A) (k : A -> M B) : M B :=
  fun g =>
    match c g with
    | (Return a, g') => k a g'
    | (Raise e, g') => (Raise e, g')
    end.

(** Sequencing of steps that can raise but leave the random source
    alone. *)
Definition obind {A B} (o : outcome A) (k : A -> outcome B) : outcome B :=
  match o with
  | Return a => k a
  | Raise e => Raise e
  end.

Definition lift {A} (o : outcome A) : M A := fun g => (o, g).

(** [random.random()]: the head of the sequence; the tail remains. *)
Definition random_random : M float :=
  fun g => (Return (g 0%nat), fun n => g (S n)).

(** [range(a, b)] as the list it iterates over; empty when [b <= a]. *)
Definition range (a b : Z) : list Z :=
  map (fun k => a + Z.of_nat k) (seq 0 (Z.to_nat (b - a))).

(** [for v in l: s = body(s, v)], the loop state threaded explicitly. *)
Fixpoint for_in {A S} (l : list A) (body : S -> A -> M S) (s : S) : M S :=
  match l with
  | [] => ret s
  | v :: l' => bind (body s v) (for_in l' body)
  end.

(** [[e(v) for v in l]]: elements are evaluated in order, the first
    exception ends the comprehension. *)
Fixpoint comprehension {A B} (e : A -> M B) (l : list A) : M (list B) :=
  match l with
  | [] => ret []
  | v :: l' =>
      bind (e v) (fun b => bind (comprehension e l') (fun bs => ret (b :: bs)))
  end.

(** [[v] * k]; a count below one gives the empty list. *)
Definition list_mul {A} (v : A) (k : Z) : list A := repeat v (Z.to_nat k).

(** Correctly rounded conversion of an integer to binary64 (ties to even). *)
Definition float_of_int (i : Z) : float :=
  SF2Prim (binary_normalize prec emax i 0 false).

(** The least magnitude that rounds up to 2^1024: halfway between the
    largest finite binary64 and 2^1024. *)
Definition float_overflow : Z := 2 ^ 1024 - 2 ^ 970.

(** [float(i)] on an [int]: [OverflowError] when [i] is too large to
    convert. *)
Definition float_ (i : Z) : outcome float :=
  if Z.abs i <? float_overflow then Return (float_of_int i)
  else Raise OverflowError.

(** [a / b] with a [float] on the left and an [int] on the right: the
    right operand is converted first, then a zero divisor raises. *)
Definition truediv (a : float) (b : Z) : outcome float :=
  obind (float_ b) (fun fb =>
    if b =? 0 then Raise ZeroDivisionError else Return (a / fb)%float).

(** [d[key]] on a dict given by its items in insertion order. *)
Fixpoint getitem {V} (d : list (string * V)) (key : string) : outcome V :=
  match d with
  | [] => Raise (KeyError key)
  | (k, v) :: d' => if String.eqb k key then Return v else getitem d' key
  end.

(** [list(d.keys())]. *)
Definition keys {V} (d : list (string * V)) : list string := map fst d.

End Py.

Import Py.

Notation "x <- c ;; k" := (bind c (fun x => k))
  (at level 61, c at next level, right associativity).
Notation "x <~ o ;; k" := (obind o (fun x => k))
  (at level 61, o at next level, right associativity).

(** ** The data container *)

Definition point : Type := float * float.

(** [Graph]: the dataclass with fields [N], [X] and [y]. *)
Record Graph : Type := mkGraph {
  Graph_N : Z;
  Graph_X : list point;
  Graph_y : list Z
}.

(** ** The point sampler *)

Definition make_pts (N : Z) : M (list point) :=
  for_in (range 0 N)
    (fun X _ =>
       x_1 <- random_random ;;
       x_2 <- random_random ;;
       ret (X ++ [(x_1, x_2)]))
    [].

(** ** The five rules that label sampled points *)

Definition simple (N : Z) : M Graph :=
  X <- make_pts N ;;
  y <- for_in X
         (fun y p =>
            let '(x_1, x_2) := p in
            let y1 := if (x_1 <? 0.5)%float then 1 else 0 in
            ret (y ++ [y1]))
         [] ;;
  ret (mkGraph N X y).

Definition diag (N : Z) : M Graph :=
  X <- make_pts N ;;
  y <- for_in X
         (fun y p =>
            let '(x_1, x_2) := p in
            let y1 := if (x_1 + x_2 <? 0.5)%float then 1 else 0 in
            ret (y ++ [y1]))
         [] ;;
  ret (mkGraph N X y).

Definition split (N : Z) : M Graph :=
  X <- make_pts N ;;
  y <- for_in X
         (fun y p =>
            let '(x_1, x_2) := p in
            let y1 :=
              if ((x_1 <? 0.2)%float || (0.8 <? x_1)%float)%bool then 1 else 0 in
            ret (y ++ [y1]))
         [] ;;
  ret (mkGraph N X y).

Definition xor (N : Z) : M Graph :=
  X <- make_pts N ;;
  y <- for_in X
         (fun y p =>
            let '(x_1, x_2) := p in
            let y1 :=
              if (((x_1 <? 0.5)%float && (0.5 <? x_2)%float)
                  || ((0.5 <? x_1)%float && (x_2 <? 0.5)%float))%bool
              then 1 else 0 in
            ret (y ++ [y1]))
         [] ;;
  ret (mkGraph N X y).

Definition circle (N : Z) : M Graph :=
  X <- make_pts N ;;
  y <- for_in X
         (fun y p =>
            let '(x_1, x_2) := p in
            let '(x1, x2) := ((x_1 - 0.5)%float, (x_2 - 0.5)%float) in
            let y1 := if (0.1 <? x1 * x1 + x2 * x2)%float then 1 else 0 in
            ret (y ++ [y1]))
         [] ;;
  ret (mkGraph N X y).

(** ** The spiral rule and the registry *)

Section Datasets.

(** [math.cos] and [math.sin] belong to the C library, not to this
    module; they are taken as given functions on binary64.  (They raise
    only on an infinite argument; the arguments formed below are a finite
    quotient times ten.) *)
Variables math_cos math_sin : float -> float.

(** The two local helpers [x] and [y] of [spiral]. *)
Definition spiral_x (t : float) : float := (t * math_cos t / 20.0)%float.
Definition spiral_y (t : float) : float := (t * math_sin t / 20.0)%float.

(** [s * (float(i) / (N // 2))], the argument both comprehensions pass to
    the helpers (with [s = 10.0] and [s = -10.0]). *)
Definition spiral_t (s : float) (N i : Z) : outcome float :=
  fi <~ float_ i ;;
  q <~ truediv fi (N / 2) ;;
  Return (s * q)%float.

(** The element of the first comprehension. *)
Definition spiral_arm0 (N i : Z) : outcome point :=
  t1 <~ spiral_t 10.0 N i ;;
  t2 <~ spiral_t 10.0 N i ;;
  Return ((spiral_x t1 + 0.5)%float, (spiral_y t2 + 0.5)%float).

(** The element of the second comprehension. *)
Definition spiral_arm1 (N i : Z) : outcome point :=
  t1 <~ spiral_t (-10.0) N i ;;
  t2 <~ spiral_t (-10.0) N i ;;
  Return ((spiral_y t1 + 0.5)%float, (spiral_x t2 + 0.5)%float).

Definition spiral (N : Z) : M Graph :=
  X <- comprehension (fun i => lift (spiral_arm0 N i)) (range (5 + 0) (5 + N / 2)) ;;
  X' <- comprehension (fun i => lift (spiral_arm1 N i)) (range (5 + 0) (5 + N / 2)) ;;
  let X := X ++ X' in
  let y2 := list_mul 0 (N / 2) ++ list_mul 1 (N / 2) in
  ret (mkGraph N X y2).

(** The module-level dict [datasets], in the order it is written. *)
Definition datasets : list (string * (Z -> M Graph)) :=
  [ ("Simple"%string, simple);
    ("Diag"%string, diag);
    ("Split"%string, split);
    ("Xor"%string, xor);
    ("Circle"%string, circle);
    ("Spiral"%string, spiral) ].

End Datasets.

(** A random source that replays a finite list of draws (and zeros after
    it): the way a test fixes the sampled points. *)
Definition replay (draws : list float) : RNG := fun n => nth n draws 0%float.

(** What it means for a call to come back with a dataset. *)
Definition returns (c : M Graph) (g : RNG) (G : Graph) : Prop :=
  exists g', c g = (Return G, g').

(** The labels of [G] follow the decision [d] point by point. *)
Definition labelled_by (d : point -> bool) (G : Graph) : Prop :=
  Forall2 (fun p l => l = if d p then 1 else 0) (Graph_X G) (Graph_y G).

(** Every point of [G] that satisfies [b] carries label 0. *)
Definition zero_where (b : point -> bool) (G : Graph) : Prop :=
  Forall2 (fun p l => b p = true -> l = 0) (Graph_X G) (Graph_y G).

(** The points [n] rounds of the sampler read off the source [g]: draws
    [2k] and [2k + 1] make point [k]. *)
Definition sampled (g : RNG) (n : nat) : list point :=
  map (fun k => (g (2 * k)%nat, g (2 * k + 1)%nat)) (seq 0 n).

(** [g'] is the source [g] after [n] draws. *)
Definition advanced (g : RNG) (n : nat) (g' : RNG) : Prop :=
  forall k, g' k = g (n + k)%nat.

(** [0.0 <= v < 1.0], the interval [random.random()] draws from. *)
Definition in_unit (v : float) : bool := ((0 <=? v) && (v <? 1))%float.

(** ** The shape the five sampled rules share

    Each of them samples, then appends one label per point; [labelled y1]
    is that shape with the conditional expression [y1] left open, and the
    [*_y1] below are the five conditional expressions. *)

Definition labelled (y1 : float -> float -> Z) (N : Z) : M Graph :=
  X <- make_pts N ;;
  y <- for_in X (fun y p => let '(x_1, x_2) := p in ret (y ++ [y1 x_1 x_2])) [] ;;
  ret (mkGraph N X y).

Definition simple_y1 (x_1 x_2 : float) : Z :=
  if (x_1 <? 0.5)%float then 1 else 0.

Definition diag_y1 (x_1 x_2 : float) : Z :=
  if (x_1 + x_2 <? 0.5)%float then 1 else 0.

Definition split_y1 (x_1 x_2 : float) : Z :=
  if ((x_1 <? 0.2)%float || (0.8 <? x_1)%float)%bool then 1 else 0.

Definition xor_y1 (x_1 x_2 : float) : Z :=
  if (((x_1 <? 0.5)%float && (0.5 <? x_2)%float)
      || ((0.5 <? x_1)%float && (x_2 <? 0.5)%float))%bool
  then 1 else 0.

Definition circle_y1 (x_1 x_2 : float) : Z :=
  let '(x1, x2) := ((x_1 - 0.5)%float, (x_2 - 0.5)%float) in
  if (0.1 <? x1 * x1 + x2 * x2)%float then 1 else 0.

Lemma simple_shape : simple = labelled simple_y1.
Proof. reflexivity. Qed.

Lemma diag_shape : diag = labelled diag_y1.
Proof. reflexivity. Qed.

Lemma split_shape : split = labelled split_y1.
Proof. reflexivity. Qed.

Lemma xor_shape : xor = labelled xor_y1.
Proof. reflexivity. Qed.

Lemma circle_shape : circle = labelled circle_y1.
Proof. reflexivity. Qed.

(** ** Ranges, loops and comprehensions *)

Lemma range_length (a b : Z) : length (range a b) = Z.to_nat (b - a).
Proof. unfold range. now rewrite length_map, length_seq. Qed.

Lemma range_empty (a b : Z) : b <= a -> range a b = [].
Proof.
  intros H. unfold range.
  replace (Z.to_nat (b - a)) with 0%nat by lia. reflexivity.
Qed.

Lemma range_In (a b i : Z) : In i (range a b) -> a <= i < b.
Proof.
  unfold range. rewrite in_map_iff. intros (k & <- & Hk).
  apply in_seq in Hk. lia.
Qed.

Lemma range_cons (a b : Z) : a < b -> range a b = a :: range (a + 1) b.
Proof.
  intros H. unfold range.
  replace (Z.to_nat (b - a)) with (S (Z.to_nat (b - (a + 1)))) by lia.
  cbn [seq map]. f_equal; [lia|].
  rewrite <- seq_shift, map_map. apply map_ext. intros k. lia.
Qed.

Lemma seq_offset (n len : nat) :
  forall s, seq (s + n) len = map (fun j => (j + n)%nat) (seq s len).
Proof.
  induction len as [|len IH]; intros s; cbn [seq map]; [reflexivity|].
  f_equal. apply (IH (S s)).
Qed.

Lemma range_app (a k b : Z) :
  a <= k <= b -> range a b = range a k ++ range k b.
Proof.
  intros H. unfold range.
  replace (Z.to_nat (b - a)) with (Z.to_nat (k - a) + Z.to_nat (b - k))%nat by lia.
  rewrite seq_app, map_app. f_equal.
  rewrite seq_offset, map_map. apply map_ext. intros j. lia.
Qed.

(** The sampling loop appends one point per iteration, whatever the random
    source holds. *)
Lemma sampling_loop (l : list Z) :
  forall (acc : list point) (g : RNG),
  exists pts g',
    for_in l
      (fun X _ =>
         x_1 <- random_random ;;
         x_2 <- random_random ;;
         ret (X ++ [(x_1, x_2)]))
      acc g = (Return (acc ++ pts), g')
    /\ length pts = length l.
Proof.
  induction l as [|i l IH]; intros acc g; cbn [for_in].
  - exists [], g. now rewrite app_nil_r.
  - unfold bind at 1. cbn.
    destruct (IH (acc ++ [(g 0%nat, g 1%nat)]) (fun n => g (S (S n))))
      as (pts & g' & E & L).
    exists ((g 0%nat, g 1%nat) :: pts), g'. split.
    + rewrite <- app_assoc in E. exact E.
    + cbn. now rewrite L.
Qed.

Lemma make_pts_returns (N : Z) (g : RNG) :
  exists X g', make_pts N g = (Return X, g') /\ length X = Z.to_nat N.
Proof.
  destruct (sampling_loop (range 0 N) [] g) as (pts & g' & E & L).
  exists pts, g'. split; [exact E|].
  rewrite L, range_length. f_equal. lia.
Qed.

(** The labelling loop is a map over the sampled points and draws
    nothing. *)
Lemma labelling_loop (y1 : float -> float -> Z) (X : list point) :
  forall (acc : list Z) (g : RNG),
    for_in X (fun y p => let '(x_1, x_2) := p in ret (y ++ [y1 x_1 x_2])) acc g
    = (Return (acc ++ map (fun p => y1 (fst p) (snd p)) X), g).
Proof.
  induction X as [|[x_1 x_2] X IH]; intros acc g; cbn [for_in map].
  - unfold ret. now rewrite app_nil_r.
  - unfold bind at 1. cbn. rewrite IH. now rewrite <- app_assoc.
Qed.

Lemma labelled_returns (y1 : float -> float -> Z) (N : Z) (g : RNG) :
  exists X,
    returns (labelled y1 N) g (mkGraph N X (map (fun p => y1 (fst p) (snd p)) X))
    /\ length X = Z.to_nat N.
Proof.
  destruct (make_pts_returns N g) as (X & g' & E & L).
  exists X. split; [|exact L].
  exists g'. unfold labelled, bind. rewrite E, labelling_loop. reflexivity.
Qed.

(** A call has at most one outcome. *)
Lemma returns_unique (c : M Graph) (g : RNG) (G G' : Graph) :
  returns c g G -> returns c g G' -> G = G'.
Proof. intros (g1 & E1) (g2 & E2). congruence. Qed.

Lemma Forall2_map_eq {A B} (f : A -> B) (l : list A) :
  Forall2 (fun a b => b = f a) l (map f l).
Proof. induction l; cbn; constructor; auto. Qed.

Lemma comprehension_lift {A B} (e : A -> outcome B) (l : list A) :
  (forall v, In v l -> exists b, e v = Return b) ->
  forall g : RNG,
  exists bs,
    comprehension (fun v => lift (e v)) l g = (Return bs, g)
    /\ length bs = length l.
Proof.
  induction l as [|v l IH]; intros Hl g; cbn [comprehension].
  - exists []. split; reflexivity.
  - destruct (Hl v (or_introl eq_refl)) as (b & Eb).
    destruct (IH (fun w Hw => Hl w (or_intror Hw)) g) as (bs & Ebs & L).
    exists (b :: bs). split.
    + unfold bind at 1. unfold lift at 1. rewrite Eb.
      unfold bind. rewrite Ebs. reflexivity.
    + cbn. now rewrite L.
Qed.

Lemma comprehension_raises_at_head {A B} (e : A -> outcome B) (v : A)
    (l : list A) (x : exn) (g : RNG) :
  e v = Raise x ->
  comprehension (fun v => lift (e v)) (v :: l) g = (Raise x, g).
Proof.
  intros E. cbn [comprehension]. unfold bind at 1. unfold lift at 1.
  now rewrite E.
Qed.

Lemma comprehension_raises_after {A B} (e : A -> outcome B) (l1 : list A)
    (v : A) (l2 : list A) (x : exn) (g : RNG) :
  (forall w, In w l1 -> exists b, e w = Return b) ->
  e v = Raise x ->
  comprehension (fun v => lift (e v)) (l1 ++ v :: l2) g = (Raise x, g).
Proof.
  intros Hl E. induction l1 as [|w l1 IH]; cbn [app].
  - now apply comprehension_raises_at_head.
  - destruct (Hl w (or_introl eq_refl)) as (b & Eb).
    cbn [comprehension]. unfold bind at 1. unfold lift at 1. rewrite Eb.
    unfold bind. rewrite IH; [reflexivity|].
    intros u Hu. apply Hl. now right.
Qed.

(** ** Conversions to float *)

Lemma float_overflow_large : 2 ^ 1023 < float_overflow.
Proof. reflexivity. Qed.

(** The bound is where rounding leaves the finite floats: one below it
    converts to the largest finite binary64, the bound itself to
    infinity. *)
Lemma float_overflow_is_rounding_bound :
  float_of_int (float_overflow - 1) = 0x1.fffffffffffffp+1023%float
  /\ float_of_int float_overflow = infinity
  /\ float_ (float_overflow - 1) = Return 0x1.fffffffffffffp+1023%float
  /\ float_ float_overflow = Raise OverflowError.
Proof. repeat split; reflexivity. Qed.

Lemma float_returns (i : Z) :
  Z.abs i < float_overflow -> float_ i = Return (float_of_int i).
Proof.
  intros H. unfold float_.
  destruct (Z.ltb_spec (Z.abs i) float_overflow); [reflexivity | lia].
Qed.

Lemma float_raises (i : Z) :
  float_overflow <= Z.abs i -> float_ i = Raise OverflowError.
Proof.
  intros H. unfold float_.
  destruct (Z.ltb_spec (Z.abs i) float_overflow); [lia | reflexivity].
Qed.

Lemma truediv_returns (a : float) (b : Z) :
  b <> 0 -> Z.abs b < float_overflow ->
  truediv a b = Return (a / float_of_int b)%float.
Proof.
  intros Hb Hlt. unfold truediv. rewrite (float_returns b Hlt). cbn [obind].
  destruct (Z.eqb_spec b 0); [contradiction | reflexivity].
Qed.

Lemma truediv_by_zero (a : float) : truediv a 0 = Raise ZeroDivisionError.
Proof. reflexivity. Qed.

(** ** The spiral's two comprehensions *)

Section SpiralFacts.

Variables math_cos math_sin : float -> float.

Abbreviation arm0 := (spiral_arm0 math_cos math_sin) (only parsing).
Abbreviation arm1 := (spiral_arm1 math_cos math_sin) (only parsing).

Lemma spiral_t_returns (s : float) (N i : Z) :
  5 <= i < 5 + N / 2 -> N / 2 + 4 < float_overflow ->
  exists t, spiral_t s N i = Return t.
Proof.
  intros Hi HN. unfold spiral_t.
  rewrite float_returns by lia. cbn [obind].
  rewrite truediv_returns by lia. cbn [obind]. eauto.
Qed.

Lemma spiral_arm0_returns (N i : Z) :
  5 <= i < 5 + N / 2 -> N / 2 + 4 < float_overflow ->
  exists p, arm0 N i = Return p.
Proof.
  intros Hi HN. unfold spiral_arm0.
  destruct (spiral_t_returns 10.0 N i Hi HN) as (t & ->). cbn [obind]. eauto.
Qed.

Lemma spiral_arm1_returns (N i : Z) :
  5 <= i < 5 + N / 2 -> N / 2 + 4 < float_overflow ->
  exists p, arm1 N i = Return p.
Proof.
  intros Hi HN. unfold spiral_arm1.
  destruct (spiral_t_returns (-10.0) N i Hi HN) as (t & ->). cbn [obind]. eauto.
Qed.

(** Within the range of convertible integers the spiral returns, draws
    nothing, and has [N // 2] points on each arm. *)
Lemma spiral_returns (N : Z) (g : RNG) :
  N / 2 + 4 < float_overflow ->
  exists X,
    spiral math_cos math_sin N g
    = (Return (mkGraph N X (list_mul 0 (N / 2) ++ list_mul 1 (N / 2))), g)
    /\ length X = (Z.to_nat (N / 2) + Z.to_nat (N / 2))%nat.
Proof.
  intros HN. unfold spiral.
  destruct (comprehension_lift (arm0 N) (range (5 + 0) (5 + N / 2))) with (g := g)
    as (X0 & E0 & L0).
  { intros i Hi. apply range_In in Hi. apply spiral_arm0_returns; lia. }
  destruct (comprehension_lift (arm1 N) (range (5 + 0) (5 + N / 2))) with (g := g)
    as (X1 & E1 & L1).
  { intros i Hi. apply range_In in Hi. apply spiral_arm1_returns; lia. }
  exists (X0 ++ X1). split.
  - unfold bind. rewrite E0, E1. reflexivity.
  - rewrite length_app, L0, L1, range_length. f_equal; f_equal; lia.
Qed.

(** Past that range the first comprehension stops with
    [OverflowError]: at its first element when the divisor [N // 2] does
    not convert, and otherwise at the first index that does not. *)
Lemma spiral_overflows (N : Z) (g : RNG) :
  float_overflow <= N / 2 + 4 ->
  spiral math_cos math_sin N g = (Raise OverflowError, g).
Proof.
  intros HN. pose proof float_overflow_large as HT.
  assert (0 < 2 ^ 1023) by reflexivity.
  unfold spiral, bind.
  destruct (Z_lt_le_dec (N / 2) float_overflow) as [Hdiv|Hdiv].
  - rewrite (range_app (5 + 0) float_overflow (5 + N / 2)) by lia.
    rewrite (range_cons float_overflow) by lia.
    rewrite comprehension_raises_after with (x := OverflowError); [reflexivity| |].
    + intros i Hi. apply range_In in Hi.
      unfold spiral_arm0, spiral_t.
      rewrite float_returns by lia. cbn [obind].
      rewrite truediv_returns by lia. cbn [obind]. eauto.
    + unfold spiral_arm0, spiral_t.
      rewrite float_raises by lia. reflexivity.
  - rewrite (range_cons (5 + 0) (5 + N / 2)) by lia.
    rewrite comprehension_raises_at_head with (x := OverflowError); [reflexivity|].
    unfold spiral_arm0, spiral_t.
    rewrite (float_returns (5 + 0)) by (cbn; lia). cbn [obind].
    unfold truediv. rewrite float_raises by lia. reflexivity.
Qed.

End SpiralFacts.

(** ** Equality and order on binary64

    Python's [==], [<] and [>] on floats are the IEEE comparisons, here
    [PrimFloat.eqb] and [PrimFloat.ltb].  Two floats that compare equal
    are the same value or two zeros, so no third float tells them apart
    by order. *)

Lemma SFcompare_Eq_inv (a b : spec_float) :
  SFcompare a b = Some Eq ->
  a = b \/ exists s s', a = S754_zero s /\ b = S754_zero s'.
Proof.
  destruct a as [sa|sa| |sa ma ea], b as [sb|sb| |sb mb eb]; cbn;
    try discriminate; try (destruct sa; discriminate);
    try (destruct sb; discriminate).
  - intros _. right. eauto.
  - destruct sa, sb; try discriminate; intros _; now left.
  - destruct sa, sb; try discriminate;
      destruct (Z.compare_spec ea eb) as [->| |]; try discriminate;
      intros H; left; f_equal; apply Pos.compare_eq; unfold Pos.compare.
    + destruct (Pos.compare_cont Eq ma mb); [reflexivity | discriminate..].
    + now injection H.
Qed.

Lemma SFcompare_Eq_congr (a b : spec_float) :
  SFcompare a b = Some Eq ->
  forall c, SFcompare c a = SFcompare c b /\ SFcompare a c = SFcompare b c.
Proof.
  intros H c.
  destruct (SFcompare_Eq_inv a b H) as [->|(s & s' & -> & ->)]; [now split|].
  destruct c; split; reflexivity.
Qed.

Lemma eqb_true_compare (x y : float) :
  (x =? y)%float = true -> SFcompare (Prim2SF x) (Prim2SF y) = Some Eq.
Proof.
  rewrite eqb_spec. unfold SFeqb.
  destruct (SFcompare (Prim2SF x) (Prim2SF y)) as [[| |]|]; now try discriminate.
Qed.

Lemma eqb_ltb_congr (x y : float) :
  (x =? y)%float = true ->
  forall z, (z <? x)%float = (z <? y)%float /\ (x <? z)%float = (y <? z)%float.
Proof.
  intros H z. apply eqb_true_compare in H.
  destruct (SFcompare_Eq_congr _ _ H (Prim2SF z)) as [E1 E2].
  rewrite !ltb_spec. unfold SFltb. now rewrite E1, E2.
Qed.

Lemma eqb_not_ltb (x y : float) :
  (x =? y)%float = true -> (x <? y)%float = false /\ (y <? x)%float = false.
Proof.
  intros H.
  assert (L : (x <? y)%float = false).
  { rewrite ltb_spec. unfold SFltb. now rewrite (eqb_true_compare x y H). }
  split; [exact L|].
  destruct (eqb_ltb_congr x y H y) as [E1 E2]. now rewrite E1, <- E2.
Qed.

(** ** What the five sampled rules have in common *)

Lemma Forall2_right {A B} (P : B -> Prop) (l : list A) (l' : list B) :
  Forall2 (fun _ b => P b) l l' -> Forall P l'.
Proof. induction 1; constructor; auto. Qed.

(** Every sampled rule returns, stores [N], has one label per point, and
    each label is [y1] of its point. *)
Lemma labelled_pointwise (R : point -> Z -> Prop) (y1 : float -> float -> Z)
    (N : Z) (g : RNG) :
  (forall x_1 x_2, R (x_1, x_2) (y1 x_1 x_2)) ->
  exists G,
    returns (labelled y1 N) g G
    /\ Graph_N G = N
    /\ length (Graph_X G) = Z.to_nat N
    /\ length (Graph_y G) = Z.to_nat N
    /\ Forall2 R (Graph_X G) (Graph_y G).
Proof.
  intros HR. destruct (labelled_returns y1 N g) as (X & Hret & L).
  eexists. split; [exact Hret|]. cbn [Graph_N Graph_X Graph_y].
  repeat split; [exact L | now rewrite length_map |].
  eapply Forall2_impl; [|apply Forall2_map_eq].
  intros [x_1 x_2] l ->. apply HR.
Qed.

Lemma labelled_negative (y1 : float -> float -> Z) (N : Z) (g : RNG) :
  N < 0 -> labelled y1 N g = (Return (mkGraph N [] []), g).
Proof.
  intros H. unfold labelled, make_pts. rewrite range_empty by lia. reflexivity.
Qed.

Lemma list_mul_binary (k : Z) :
  Forall (fun l => l = 0 \/ l = 1) (list_mul 0 k ++ list_mul 1 k).
Proof.
  apply Forall_app. unfold list_mul.
  split; apply Forall_forall; intros l Hl; apply repeat_spec in Hl; auto.
Qed.

Ltac registry_cases H :=
  cbn [datasets In] in H;
  repeat (destruct H as [H|H]; [injection H as <- <- | ]);
  [ .. | contradiction ].

(** ** The dataset contract *)

Section Contract.

Variables math_cos math_sin : float -> float.

Abbreviation spiral_ := (spiral math_cos math_sin) (only parsing).
Abbreviation registry := (datasets math_cos math_sin) (only parsing).

(** C1.  The invariant [len(X) == len(y) == N] of a returned [Graph] is
    broken by [spiral] at an odd [N]: [spiral(3)] returns a [Graph] whose
    count field is 3 while it holds two points and the two labels
    [0, 1]. *)
Theorem spiral_3_count_exceeds_points (g : RNG) :
  exists G,
    returns (spiral_ 3) g G
    /\ Graph_N G = 3
    /\ length (Graph_X G) = 2%nat
    /\ Graph_y G = [0; 1].
Proof.
  destruct (spiral_returns math_cos math_sin 3 g) as (X & E & L);
    [reflexivity|].
  eexists. split; [exists g; exact E|]. cbn. auto.
Qed.

(** C2, as amended.  For every [N >= 0] whose half, plus the index offset,
    still converts to a float ([N // 2 + 4 < 2^1024 - 2^970]), [spiral]
    returns exactly [2 * (N // 2)] points (so [N - 1] for an odd [N]) and
    its labels are [N // 2] zeros followed by [N // 2] ones; and for
    [N = 4] it returns four points with labels [0, 0, 1, 1]. *)
Theorem spiral_length_and_labels :
  (forall (N : Z) (g : RNG),
      0 <= N -> N / 2 + 4 < float_overflow ->
      exists G,
        returns (spiral_ N) g G
        /\ Z.of_nat (length (Graph_X G)) = 2 * (N / 2)
        /\ (Z.odd N = true -> Z.of_nat (length (Graph_X G)) = N - 1)
        /\ Graph_y G
           = repeat 0 (Z.to_nat (N / 2)) ++ repeat 1 (Z.to_nat (N / 2)))
  /\ (forall g : RNG,
        exists G,
          returns (spiral_ 4) g G
          /\ length (Graph_X G) = 4%nat
          /\ Graph_y G = [0; 0; 1; 1]).
Proof.
  split.
  - intros N g HN Hconv.
    destruct (spiral_returns math_cos math_sin N g Hconv) as (X & E & L).
    eexists. split; [exists g; exact E|]. cbn [Graph_X Graph_y].
    assert (0 <= N / 2) by (apply Z.div_pos; lia).
    repeat split.
    + rewrite L. lia.
    + intros Hodd. rewrite L.
      assert (N mod 2 = 1)
        by (rewrite <- Z.bit0_mod, Z.bit0_odd, Hodd; reflexivity).
      pose proof (Z.div_mod N 2 ltac:(lia)). lia.
  - intros g.
    destruct (spiral_returns math_cos math_sin 4 g) as (X & E & L);
      [reflexivity|].
    eexists. split; [exists g; exact E|]. cbn. auto.
Qed.

(** C3.  For every [N >= 0], each of [simple], [diag], [split], [xor] and
    [circle] returns a [Graph] with exactly [N] points and exactly [N]
    labels. *)
Theorem sampled_rules_have_N_points (f : Z -> M Graph) (N : Z) (g : RNG) :
  In f [simple; diag; split; xor; circle] ->
  0 <= N ->
  exists G,
    returns (f N) g G
    /\ Z.of_nat (length (Graph_X G)) = N
    /\ Z.of_nat (length (Graph_y G)) = N.
Proof.
  intros Hf HN.
  assert (Hl : exists y1, f = labelled y1).
  { cbn [In] in Hf.
    repeat (destruct Hf as [<-|Hf]; [eexists; reflexivity|]).
    contradiction. }
  destruct Hl as (y1 & ->).
  destruct (labelled_pointwise (fun _ _ => True) y1 N g)
    as (G & Hret & _ & LX & Ly & _); [auto|].
  exists G. split; [exact Hret|]. rewrite LX, Ly. lia.
Qed.

(** C4.  Subscripting [datasets] with one of its six names gives that
    generator itself; the dict has no other key, and subscripting it with
    any other name raises [KeyError], a [LookupError]. *)
Theorem registry_lookup :
  getitem registry "Simple" = Return simple
  /\ getitem registry "Diag" = Return diag
  /\ getitem registry "Split" = Return split
  /\ getitem registry "Xor" = Return xor
  /\ getitem registry "Circle" = Return circle
  /\ getitem registry "Spiral" = Return spiral_
  /\ keys registry
     = ["Simple"; "Diag"; "Split"; "Xor"; "Circle"; "Spiral"]%string
  /\ (forall name : string,
        ~ In name ["Simple"; "Diag"; "Split"; "Xor"; "Circle"; "Spiral"]%string ->
        getitem registry name = Raise (KeyError name)
        /\ is_LookupError (KeyError name) = true)
  /\ getitem registry "NotARule" = Raise (KeyError "NotARule").
Proof.
  repeat (split; [reflexivity|]). split; [|reflexivity].
  intros name Hname. split; [|reflexivity].
  unfold datasets. cbn [getitem].
  repeat match goal with
         | |- context [String.eqb ?k name] =>
             destruct (String.eqb_spec k name) as [<-|_];
             [exfalso; apply Hname; cbn; tauto|]
         end.
  reflexivity.
Qed.

(** C5.  For every rule of the registry and every [N >= 0], every label of
    a returned [Graph] is 0 or 1; and the call does return whenever
    [N // 2 + 4] converts to a float (the sampled rules always do). *)
Theorem labels_are_binary (name : string) (f : Z -> M Graph) (N : Z)
    (g : RNG) :
  In (name, f) registry ->
  0 <= N ->
  (forall G, returns (f N) g G ->
             Forall (fun l => l = 0 \/ l = 1) (Graph_y G))
  /\ (N / 2 + 4 < float_overflow -> exists G, returns (f N) g G).
Proof.
  intros Hf HN.
  assert (Hcases :
    (exists y1, f = labelled y1
                /\ forall x_1 x_2, y1 x_1 x_2 = 0 \/ y1 x_1 x_2 = 1)
    \/ f = spiral_).
  { registry_cases Hf;
      [left; eexists; split; [reflexivity|]; intros x_1 x_2 ..| now right].
    - unfold simple_y1. destruct (_ <? _)%float; auto.
    - unfold diag_y1. destruct (_ <? _)%float; auto.
    - unfold split_y1. destruct (_ || _)%bool; auto.
    - unfold xor_y1. destruct (_ || _)%bool; auto.
    - unfold circle_y1. cbn zeta. destruct (_ <? _)%float; auto. }
  destruct Hcases as [(y1 & -> & Hy1)| ->].
  - destruct (labelled_pointwise (fun _ l => l = 0 \/ l = 1) y1 N g)
      as (G & Hret & _ & _ & _ & HF); [intros; apply Hy1|].
    split; [|eauto].
    intros G' Hret'. rewrite (returns_unique _ _ _ _ Hret' Hret).
    eapply Forall2_right, HF.
  - split.
    + intros G (g' & E). 
      destruct (Z_lt_le_dec (N / 2 + 4) float_overflow) as [Hc|Hc].
      * destruct (spiral_returns math_cos math_sin N g Hc) as (X & E' & _).
        rewrite E' in E. injection E as <- _.
        apply list_mul_binary.
      * rewrite spiral_overflows in E by exact Hc.
        discriminate.
    + intros Hc.
      destruct (spiral_returns math_cos math_sin N g Hc) as (X & E' & _).
      eexists. exists g. exact E'.
Qed.

(** C10.  With a negative [N] every generator of the registry returns
    normally, with no points, no labels and [N] itself as the count, and
    draws nothing.  [spiral(0)] and [spiral(1)] return normally and empty
    as well: their index range is empty, so the element expression, which
    would raise [ZeroDivisionError] at any index, is never evaluated. *)
Theorem negative_and_tiny_N_return_empty :
  (forall (name : string) (f : Z -> M Graph) (N : Z) (g : RNG),
      In (name, f) registry -> N < 0 ->
      f N g = (Return (mkGraph N [] []), g))
  /\ (forall g : RNG,
        spiral_ 0 g = (Return (mkGraph 0 [] []), g)
        /\ spiral_ 1 g = (Return (mkGraph 1 [] []), g))
  /\ range (5 + 0) (5 + 0 / 2) = []
  /\ range (5 + 0) (5 + 1 / 2) = []
  /\ (forall N i : Z,
        N = 0 \/ N = 1 -> Z.abs i < float_overflow ->
        spiral_arm0 math_cos math_sin N i = Raise ZeroDivisionError
        /\ spiral_arm1 math_cos math_sin N i = Raise ZeroDivisionError).
Proof.
  split; [|split; [|split; [|split]]]; try reflexivity.
  - intros name f N g Hf HN. registry_cases Hf;
      try (apply labelled_negative; exact HN).
    assert (N / 2 < 0) by (apply Z.div_lt_upper_bound; lia).
    unfold spiral, list_mul. rewrite range_empty by lia.
    replace (Z.to_nat (N / 2)) with 0%nat by lia. reflexivity.
  - intros g. split; reflexivity.
  - intros N i HN Hi. unfold spiral_arm0, spiral_arm1, spiral_t.
    rewrite (float_returns i Hi). cbn [obind].
    destruct HN as [-> | ->]; split; reflexivity.
Qed.

End Contract.

(** ** The decision rules on fixed points *)

(** C6.  [simple] labels a point 1 exactly when [x_1 < 0.5] and 0
    otherwise: the label is a function of [x_1] alone.  With the draws
    fixed to (0.3, 0.9), (0.7, 0.1) and (0.5, 0.5) the labels are 1, 0
    and 0. *)
Theorem simple_labels_left_of_half :
  (forall (N : Z) (g : RNG),
      exists G,
        returns (simple N) g G
        /\ labelled_by (fun p => (fst p <? 0.5)%float) G)
  /\ returns (simple 3) (replay [0.3; 0.9; 0.7; 0.1; 0.5; 0.5]%float)
       (mkGraph 3 [(0.3, 0.9); (0.7, 0.1); (0.5, 0.5)]%float [1; 0; 0]).
Proof.
  split.
  - intros N g.
    destruct (labelled_pointwise
                (fun p l => l = if (fst p <? 0.5)%float then 1 else 0)
                simple_y1 N g) as (G & Hret & _ & _ & _ & HF);
      [reflexivity|].
    exists G. split; assumption.
  - eexists. reflexivity.
Qed.

(** C7.  [xor] labels a point 1 exactly when [x_1 < 0.5 and x_2 > 0.5] or
    [x_1 > 0.5 and x_2 < 0.5], and 0 otherwise; with the draws fixed to
    (0.2, 0.8) and (0.2, 0.2) the labels are 1 and 0. *)
Theorem xor_labels_opposite_quadrants :
  (forall (N : Z) (g : RNG),
      exists G,
        returns (xor N) g G
        /\ labelled_by
             (fun p => ((fst p <? 0.5) && (0.5 <? snd p)
                        || (0.5 <? fst p) && (snd p <? 0.5))%float%bool) G)
  /\ returns (xor 2) (replay [0.2; 0.8; 0.2; 0.2]%float)
       (mkGraph 2 [(0.2, 0.8); (0.2, 0.2)]%float [1; 0]).
Proof.
  split.
  - intros N g.
    destruct (labelled_pointwise
                (fun p l =>
                   l = if ((fst p <? 0.5) && (0.5 <? snd p)
                           || (0.5 <? fst p) && (snd p <? 0.5))%float%bool
                       then 1 else 0)
                xor_y1 N g) as (G & Hret & _ & _ & _ & HF);
      [reflexivity|].
    exists G. split; assumption.
  - eexists. reflexivity.
Qed.

(** C8.  [circle] labels a point 1 exactly when
    [(x_1 - 0.5)^2 + (x_2 - 0.5)^2 > 0.1] and 0 otherwise; with the draws
    fixed to the centre (0.5, 0.5) and the corner (0.0, 0.0), whose squared
    distance from the centre is 0.5, the labels are 0 and 1. *)
Theorem circle_labels_outside_disc :
  (forall (N : Z) (g : RNG),
      exists G,
        returns (circle N) g G
        /\ labelled_by
             (fun p => (0.1 <? (fst p - 0.5) * (fst p - 0.5)
                              + (snd p - 0.5) * (snd p - 0.5))%float) G)
  /\ returns (circle 2) (replay [0.5; 0.5; 0.0; 0.0]%float)
       (mkGraph 2 [(0.5, 0.5); (0.0, 0.0)]%float [0; 1])
  /\ ((0.0 - 0.5) * (0.0 - 0.5) + (0.0 - 0.5) * (0.0 - 0.5) = 0.5)%float.
Proof.
  split; [|split].
  - intros N g.
    destruct (labelled_pointwise
                (fun p l =>
                   l = if (0.1 <? (fst p - 0.5) * (fst p - 0.5)
                                  + (snd p - 0.5) * (snd p - 0.5))%float
                       then 1 else 0)
                circle_y1 N g) as (G & Hret & _ & _ & _ & HF);
      [reflexivity|].
    exists G. split; assumption.
  - eexists. reflexivity.
  - reflexivity.
Qed.

(** ** Points on a decision boundary *)

Lemma simple_boundary (x_1 x_2 : float) :
  (x_1 =? 0.5)%float = true -> simple_y1 x_1 x_2 = 0.
Proof.
  intros H. unfold simple_y1.
  destruct (eqb_not_ltb _ _ H) as [-> _]. reflexivity.
Qed.

Lemma diag_boundary (x_1 x_2 : float) :
  (x_1 + x_2 =? 0.5)%float = true -> diag_y1 x_1 x_2 = 0.
Proof.
  intros H. unfold diag_y1.
  destruct (eqb_not_ltb _ _ H) as [-> _]. reflexivity.
Qed.

Lemma split_boundary (x_1 x_2 : float) :
  ((x_1 =? 0.2) || (x_1 =? 0.8))%float%bool = true -> split_y1 x_1 x_2 = 0.
Proof.
  intros H. unfold split_y1.
  apply orb_true_iff in H. destruct H as [H|H].
  - destruct (eqb_not_ltb _ _ H) as [-> _].
    destruct (eqb_ltb_congr _ _ H 0.8%float) as [-> _]. reflexivity.
  - destruct (eqb_not_ltb _ _ H) as [_ ->].
    destruct (eqb_ltb_congr _ _ H 0.2%float) as [_ ->]. reflexivity.
Qed.

Lemma xor_boundary (x_1 x_2 : float) :
  ((x_1 =? 0.5) || (x_2 =? 0.5))%float%bool = true -> xor_y1 x_1 x_2 = 0.
Proof.
  intros H. unfold xor_y1.
  apply orb_true_iff in H. destruct H as [H|H];
    destruct (eqb_not_ltb _ _ H) as [-> ->].
  - reflexivity.
  - now rewrite !andb_false_r.
Qed.

Lemma circle_boundary (x_1 x_2 : float) :
  ((x_1 - 0.5) * (x_1 - 0.5) + (x_2 - 0.5) * (x_2 - 0.5) =? 0.1)%float = true ->
  circle_y1 x_1 x_2 = 0.
Proof.
  intros H. unfold circle_y1. cbn zeta.
  destruct (eqb_not_ltb _ _ H) as [_ ->]. reflexivity.
Qed.

(** C9.  Under each of the five sampled rules a point exactly on the
    decision boundary gets label 0: [x_1 == 0.5] for [simple],
    [x_1 + x_2 == 0.5] for [diag], [x_1 == 0.2] or [x_1 == 0.8] for
    [split], [x_1 == 0.5] or [x_2 == 0.5] for [xor], and squared radius
    [== 0.1] for [circle].  The fixed draws show one such point per
    boundary. *)
Theorem boundary_points_get_zero :
  (forall (N : Z) (g : RNG),
      (exists G, returns (simple N) g G
                 /\ zero_where (fun p => (fst p =? 0.5)%float) G)
      /\ (exists G, returns (diag N) g G
                    /\ zero_where (fun p => (fst p + snd p =? 0.5)%float) G)
      /\ (exists G, returns (split N) g G
                    /\ zero_where
                         (fun p => ((fst p =? 0.2) || (fst p =? 0.8))%float%bool) G)
      /\ (exists G, returns (xor N) g G
                    /\ zero_where
                         (fun p => ((fst p =? 0.5) || (snd p =? 0.5))%float%bool) G)
      /\ (exists G, returns (circle N) g G
                    /\ zero_where
                         (fun p => ((fst p - 0.5) * (fst p - 0.5)
                                    + (snd p - 0.5) * (snd p - 0.5) =? 0.1)%float) G))
  /\ returns (simple 1) (replay [0.5; 0.3]%float)
       (mkGraph 1 [(0.5, 0.3)]%float [0])
  /\ returns (diag 1) (replay [0.25; 0.25]%float)
       (mkGraph 1 [(0.25, 0.25)]%float [0])
  /\ returns (split 2) (replay [0.2; 0.5; 0.8; 0.5]%float)
       (mkGraph 2 [(0.2, 0.5); (0.8, 0.5)]%float [0; 0])
  /\ returns (xor 2) (replay [0.5; 0.9; 0.1; 0.5]%float)
       (mkGraph 2 [(0.5, 0.9); (0.1, 0.5)]%float [0; 0])
  /\ returns (circle 1) (replay [0x1.0624dd2f1a9fep-1; 0x1.78d4fdf3b645ap-3]%float)
       (mkGraph 1 [(0x1.0624dd2f1a9fep-1, 0x1.78d4fdf3b645ap-3)]%float [0])
  /\ ((0x1.0624dd2f1a9fep-1 - 0.5) * (0x1.0624dd2f1a9fep-1 - 0.5)
      + (0x1.78d4fdf3b645ap-3 - 0.5) * (0x1.78d4fdf3b645ap-3 - 0.5) =? 0.1)%float
     = true.
Proof.
  split.
  - intros N g. repeat split.
    + destruct (labelled_pointwise
                  (fun p l => (fst p =? 0.5)%float = true -> l = 0)
                  simple_y1 N g) as (G & Hret & _ & _ & _ & HF);
        [exact simple_boundary | eauto].
    + destruct (labelled_pointwise
                  (fun p l => (fst p + snd p =? 0.5)%float = true -> l = 0)
                  diag_y1 N g) as (G & Hret & _ & _ & _ & HF);
        [exact diag_boundary | eauto].
    + destruct (labelled_pointwise
                  (fun p l =>
                     ((fst p =? 0.2) || (fst p =? 0.8))%float%bool = true -> l = 0)
                  split_y1 N g) as (G & Hret & _ & _ & _ & HF);
        [exact split_boundary | eauto].
    + destruct (labelled_pointwise
                  (fun p l =>
                     ((fst p =? 0.5) || (snd p =? 0.5))%float%bool = true -> l = 0)
                  xor_y1 N g) as (G & Hret & _ & _ & _ & HF);
        [exact xor_boundary | eauto].
    + destruct (labelled_pointwise
                  (fun p l =>
                     ((fst p - 0.5) * (fst p - 0.5)
                      + (snd p - 0.5) * (snd p - 0.5) =? 0.1)%float = true -> l = 0)
                  circle_y1 N g) as (G & Hret & _ & _ & _ & HF);
        [exact circle_boundary | eauto].
  - repeat split; try (eexists; reflexivity).
Qed.

(** ** Instances

    The statements above that carry hypotheses, applied at concrete
    arguments.  [math.cos] and [math.sin] are instantiated by the identity:
    the facts shown do not depend on them. *)

Lemma spiral_length_and_labels_at_7 :
  0 <= 7
  /\ 7 / 2 + 4 < float_overflow
  /\ exists G,
       returns (spiral (fun t => t) (fun t => t) 7) (replay []) G
       /\ Z.of_nat (length (Graph_X G)) = 2 * (7 / 2)
       /\ (Z.odd 7 = true -> Z.of_nat (length (Graph_X G)) = 7 - 1)
       /\ Graph_y G = repeat 0 (Z.to_nat (7 / 2)) ++ repeat 1 (Z.to_nat (7 / 2)).
Proof.
  split; [lia|]. split; [reflexivity|].
  apply (proj1 (spiral_length_and_labels (fun t => t) (fun t => t)) 7 (replay []));
    [lia | reflexivity].
Defined.

(** [spiral(2 ** 1025)] does not return, whatever the cosine, the sine and
    the random source: its divisor [2 ** 1024] does not convert to a
    float. *)
Lemma spiral_2p1025_does_not_return :
  ~ exists (math_cos math_sin : float -> float) (g : RNG) (G : Graph),
      returns (spiral math_cos math_sin (2 ^ 1025)) g G.
Proof.
  intros (c & s & g & G & g' & E).
  rewrite spiral_overflows in E; [discriminate|].
  apply Z.leb_le. reflexivity.
Qed.

Lemma sampled_rules_have_N_points_at_xor_3 :
  In xor [simple; diag; split; xor; circle]
  /\ 0 <= 3
  /\ exists G,
       returns (xor 3) (replay [0.2; 0.8; 0.2; 0.2; 0.9; 0.1]%float) G
       /\ Z.of_nat (length (Graph_X G)) = 3
       /\ Z.of_nat (length (Graph_y G)) = 3.
Proof.
  assert (Hin : In xor [simple; diag; split; xor; circle])
    by (right; right; right; left; reflexivity).
  split; [exact Hin|]. split; [lia|].
  apply (sampled_rules_have_N_points xor 3 _ Hin). lia.
Defined.

Lemma labels_are_binary_at_spiral_4 :
  In ("Spiral"%string, spiral (fun t => t) (fun t => t))
     (datasets (fun t => t) (fun t => t))
  /\ 0 <= 4
  /\ (forall G,
        returns (spiral (fun t => t) (fun t => t) 4) (replay []) G ->
        Forall (fun l => l = 0 \/ l = 1) (Graph_y G))
  /\ (4 / 2 + 4 < float_overflow ->
      exists G, returns (spiral (fun t => t) (fun t => t) 4) (replay []) G).
Proof.
  assert (Hin : In ("Spiral"%string, spiral (fun t => t) (fun t => t))
                   (datasets (fun t => t) (fun t => t)))
    by (do 5 right; left; reflexivity).
  split; [exact Hin|]. split; [lia|].
  apply (labels_are_binary _ _ "Spiral" _ 4 (replay []) Hin). lia.
Defined.

Lemma negative_N_at_circle_minus_3 :
  In ("Circle"%string, circle) (datasets (fun t => t) (fun t => t))
  /\ -3 < 0
  /\ circle (-3) (replay [0.5; 0.5]%float)
     = (Return (mkGraph (-3) [] []), replay [0.5; 0.5]%float).
Proof.
  assert (Hin : In ("Circle"%string, circle) (datasets (fun t => t) (fun t => t)))
    by (do 4 right; left; reflexivity).
  split; [exact Hin|]. split; [lia|].
  apply (proj1 (negative_and_tiny_N_return_empty (fun t => t) (fun t => t))
               "Circle"%string circle (-3) _ Hin).
  lia.
Defined.


(** ** What the sampler reads off the random source *)

Lemma sampled_S (g : RNG) (n : nat) :
  sampled g (S n) = (g 0%nat, g 1%nat) :: sampled (fun k => g (S (S k))) n.
Proof.
  unfold sampled. cbn [seq map]. f_equal.
  rewrite <- seq_shift, map_map. apply map_ext. intros k.
  replace (2 * S k)%nat with (S (S (2 * k))) by lia.
  replace (S (S (2 * k)) + 1)%nat with (S (S (2 * k + 1))) by lia.
  reflexivity.
Qed.

Lemma sampled_app (g : RNG) (n m : nat) :
  sampled g (n + m) = sampled g n ++ sampled (fun k => g (2 * n + k)%nat) m.
Proof.
  unfold sampled. rewrite seq_app, map_app. apply (f_equal (app _)).
  rewrite (seq_offset n m 0), map_map. apply map_ext. intros k.
  f_equal; f_equal; lia.
Qed.

Lemma sampled_ext (g g' : RNG) (n : nat) :
  (forall k, g' k = g k) -> sampled g' n = sampled g n.
Proof. intros H. unfold sampled. apply map_ext. intros k. now rewrite !H. Qed.

Lemma sampled_length (g : RNG) (n : nat) : length (sampled g n) = n.
Proof. unfold sampled. now rewrite length_map, length_seq. Qed.

(** The sampling loop, with what it appends and where it leaves the
    source. *)
Lemma sampling_loop_exact (l : list Z) :
  forall (acc : list point) (g : RNG),
  exists g',
    for_in l
      (fun X _ =>
         x_1 <- random_random ;;
         x_2 <- random_random ;;
         ret (X ++ [(x_1, x_2)]))
      acc g = (Return (acc ++ sampled g (length l)), g')
    /\ advanced g (2 * length l) g'.
Proof.
  induction l as [|i l IH]; intros acc g; cbn [for_in].
  - exists g. split; [now rewrite app_nil_r | intros k; reflexivity].
  - unfold bind at 1. cbn -[sampled Nat.mul Nat.add].
    destruct (IH (acc ++ [(g 0%nat, g 1%nat)]) (fun n => g (S (S n))))
      as (g' & E & A).
    exists g'. split.
    + rewrite <- app_assoc in E. cbn [app] in E.
      rewrite sampled_S. exact E.
    + intros k. rewrite A. f_equal. lia.
Qed.

Lemma make_pts_exact (N : Z) (g : RNG) :
  exists g',
    make_pts N g = (Return (sampled g (Z.to_nat N)), g')
    /\ advanced g (2 * Z.to_nat N) g'.
Proof.
  destruct (sampling_loop_exact (range 0 N) [] g) as (g' & E & A).
  rewrite range_length, Z.sub_0_r in E, A. cbn [app] in E.
  exists g'. split; assumption.
Qed.

Lemma labelled_exact (y1 : float -> float -> Z) (N : Z) (g : RNG) :
  exists g',
    make_pts N g = (Return (sampled g (Z.to_nat N)), g')
    /\ advanced g (2 * Z.to_nat N) g'
    /\ labelled y1 N g
       = (Return (mkGraph N (sampled g (Z.to_nat N))
                    (map (fun p => y1 (fst p) (snd p)) (sampled g (Z.to_nat N)))),
          g').
Proof.
  destruct (make_pts_exact N g) as (g' & E & A).
  exists g'. repeat split; [exact E | exact A |].
  unfold labelled, bind. rewrite E, labelling_loop. reflexivity.
Qed.

Lemma sampled_nth (g : RNG) (n k : nat) :
  (k < n)%nat ->
  nth_error (sampled g n) k = Some (g (2 * k)%nat, g (2 * k + 1)%nat).
Proof.
  intros H. unfold sampled.
  rewrite nth_error_map, nth_error_seq.
  destruct (Nat.ltb_spec k n); [reflexivity | lia].
Qed.

(** X1.  [make_pts(N)] never raises.  It returns [max(N, 0)] points, point
    [k] being the draws [2k] and [2k + 1] of the random source in that
    order, and leaves the source advanced by exactly twice as many
    draws. *)
Theorem make_pts_reads_pairs (N : Z) (g : RNG) :
  exists X g',
    make_pts N g = (Return X, g')
    /\ length X = Z.to_nat (Z.max N 0)
    /\ (forall k, (k < length X)%nat ->
                  nth_error X k = Some (g (2 * k)%nat, g (2 * k + 1)%nat))
    /\ advanced g (2 * length X) g'.
Proof.
  destruct (make_pts_exact N g) as (g' & E & A).
  exists (sampled g (Z.to_nat N)), g'. rewrite sampled_length.
  repeat split; [exact E | lia | | exact A].
  intros k Hk. now apply sampled_nth.
Qed.

(** X2.  Sampling continues where it stopped: for [N, M >= 0],
    [make_pts(N)] followed by [make_pts(M)] on the source it left yields,
    concatenated, the points of [make_pts(N + M)], and both ways leave the
    source in the same place. *)
Theorem make_pts_continues (N M : Z) (g : RNG) :
  0 <= N -> 0 <= M ->
  exists X1 g1 X2 g2 g3,
    make_pts N g = (Return X1, g1)
    /\ make_pts M g1 = (Return X2, g2)
    /\ make_pts (N + M) g = (Return (X1 ++ X2), g3)
    /\ forall k, g3 k = g2 k.
Proof.
  intros HN HM.
  destruct (make_pts_exact N g) as (g1 & E1 & A1).
  destruct (make_pts_exact M g1) as (g2 & E2 & A2).
  destruct (make_pts_exact (N + M) g) as (g3 & E3 & A3).
  exists (sampled g (Z.to_nat N)), g1, (sampled g1 (Z.to_nat M)), g2, g3.
  repeat split; [exact E1 | exact E2 | |].
  - rewrite E3. do 2 f_equal.
    rewrite Z2Nat.inj_add, sampled_app by lia. f_equal.
    symmetry. apply sampled_ext. exact A1.
  - intros k. rewrite A3, A2, A1. f_equal. lia.
Qed.

(** The five sampled rules, with the conditional expression of each. *)
Lemma sampled_rule_cases (f : Z -> M Graph) :
  In f [simple; diag; split; xor; circle] -> exists y1, f = labelled y1.
Proof.
  cbn [In]. intros Hf.
  repeat (destruct Hf as [<-|Hf]; [eexists; reflexivity|]).
  contradiction.
Qed.

(** X4.  The five sampled rules sample alike: from the same random source
    each of them returns exactly the points [make_pts(N)] returns, stores
    [N], and leaves the source where [make_pts(N)] leaves it (labelling
    draws nothing).  None of them raises, for any [N]. *)
Theorem sampled_rules_share_points (N : Z) (g : RNG) :
  exists X g',
    make_pts N g = (Return X, g')
    /\ forall f, In f [simple; diag; split; xor; circle] ->
         exists y,
           f N g = (Return (mkGraph N X y), g') /\ length y = length X.
Proof.
  destruct (make_pts_exact N g) as (g' & E & A).
  exists (sampled g (Z.to_nat N)), g'. split; [exact E|].
  intros f Hf. destruct (sampled_rule_cases f Hf) as (y1 & ->).
  destruct (labelled_exact y1 N g) as (g'' & E' & _ & EL).
  assert (g'' = g') by congruence. subst g''.
  eexists. split; [exact EL|]. now rewrite length_map.
Qed.

Lemma in_unit_sampled (g : RNG) (n : nat) :
  (forall k, in_unit (g k) = true) ->
  Forall (fun p => in_unit (fst p) = true /\ in_unit (snd p) = true)
         (sampled g n).
Proof.
  intros H. unfold sampled. apply Forall_map, Forall_forall.
  intros k _. cbn. split; apply H.
Qed.

(** X3.  When every draw of the random source lies in [0, 1), as
    [random.random()] promises, both coordinates of every point of every
    sampled rule lie in [0, 1): the points are the draws themselves. *)
Theorem sampled_points_in_unit_square (f : Z -> M Graph) (N : Z) (g : RNG) :
  In f [simple; diag; split; xor; circle] ->
  (forall k, in_unit (g k) = true) ->
  exists G,
    returns (f N) g G
    /\ Forall (fun p => in_unit (fst p) = true /\ in_unit (snd p) = true)
              (Graph_X G).
Proof.
  intros Hf Hg. destruct (sampled_rule_cases f Hf) as (y1 & ->).
  destruct (labelled_exact y1 N g) as (g' & _ & _ & EL).
  eexists. split; [exists g'; exact EL|]. cbn [Graph_X].
  now apply in_unit_sampled.
Qed.

(** X11.  A larger dataset extends a smaller one: for [N, M >= 0] and the
    same random source, the first [N] points and labels of a sampled
    rule's result at [N + M] are exactly its result at [N]. *)
Theorem sampled_rules_extend (f : Z -> M Graph) (N M : Z) (g : RNG) :
  In f [simple; diag; split; xor; circle] ->
  0 <= N -> 0 <= M ->
  exists G G',
    returns (f N) g G
    /\ returns (f (N + M)) g G'
    /\ firstn (Z.to_nat N) (Graph_X G') = Graph_X G
    /\ firstn (Z.to_nat N) (Graph_y G') = Graph_y G.
Proof.
  intros Hf HN HM. destruct (sampled_rule_cases f Hf) as (y1 & ->).
  destruct (labelled_exact y1 N g) as (g1 & _ & _ & E1).
  destruct (labelled_exact y1 (N + M) g) as (g2 & _ & _ & E2).
  eexists. eexists. split; [exists g1; exact E1|].
  split; [exists g2; exact E2|]. cbn [Graph_X Graph_y].
  rewrite Z2Nat.inj_add, sampled_app by lia.
  rewrite map_app.
  split.
  - rewrite firstn_app, sampled_length, Nat.sub_diag. cbn [firstn].
    rewrite app_nil_r. apply firstn_all2. rewrite sampled_length. lia.
  - rewrite firstn_app, length_map, sampled_length, Nat.sub_diag. cbn [firstn].
    rewrite app_nil_r. apply firstn_all2. rewrite length_map, sampled_length. lia.
Qed.

(** X5.  [diag] labels a point 1 exactly when [x_1 + x_2 < 0.5] (the sum
    taken in binary64) and 0 otherwise; with the draws fixed to (0.1, 0.1)
    and (0.5, 0.5) the labels are 1 and 0. *)
Theorem diag_labels_below_diagonal :
  (forall (N : Z) (g : RNG),
      exists G,
        returns (diag N) g G
        /\ labelled_by (fun p => (fst p + snd p <? 0.5)%float) G)
  /\ returns (diag 2) (replay [0.1; 0.1; 0.5; 0.5]%float)
       (mkGraph 2 [(0.1, 0.1); (0.5, 0.5)]%float [1; 0]).
Proof.
  split.
  - intros N g.
    destruct (labelled_pointwise
                (fun p l => l = if (fst p + snd p <? 0.5)%float then 1 else 0)
                diag_y1 N g) as (G & Hret & _ & _ & _ & HF);
      [reflexivity|].
    exists G. split; assumption.
  - eexists. reflexivity.
Qed.

(** X6.  [split] labels a point 1 exactly when [x_1 < 0.2] or [x_1 > 0.8]
    and 0 otherwise, whatever [x_2] is; with [x_1] fixed to 0.1, 0.5 and
    0.9 the labels are 1, 0 and 1. *)
Theorem split_labels_outer_bands :
  (forall (N : Z) (g : RNG),
      exists G,
        returns (split N) g G
        /\ labelled_by
             (fun p => ((fst p <? 0.2) || (0.8 <? fst p))%float%bool) G)
  /\ returns (split 3) (replay [0.1; 0.7; 0.5; 0.7; 0.9; 0.7]%float)
       (mkGraph 3 [(0.1, 0.7); (0.5, 0.7); (0.9, 0.7)]%float [1; 0; 1]).
Proof.
  split.
  - intros N g.
    destruct (labelled_pointwise
                (fun p l =>
                   l = if ((fst p <? 0.2) || (0.8 <? fst p))%float%bool
                       then 1 else 0)
                split_y1 N g) as (G & Hret & _ & _ & _ & HF);
      [reflexivity|].
    exists G. split; assumption.
  - eexists. reflexivity.
Qed.

(** X12.  [xor] is symmetric in the two coordinates: the point [(a, b)]
    and its mirror image [(b, a)] get the same label, for all floats [a]
    and [b]. *)
Theorem xor_label_symmetric (a b : float) :
  exists l,
    returns (xor 1) (replay [a; b]) (mkGraph 1 [(a, b)] [l])
    /\ returns (xor 1) (replay [b; a]) (mkGraph 1 [(b, a)] [l]).
Proof.
  exists (xor_y1 a b). split; eexists.
  - reflexivity.
  - cbv [xor make_pts bind ret for_in range seq map Z.to_nat Z.sub Z.opp
         Z.add Pos.to_nat Pos.iter_op Nat.add random_random replay nth app
         xor_y1].
    destruct (a <? 0.5)%float, (0.5 <? b)%float, (0.5 <? a)%float,
      (b <? 0.5)%float; reflexivity.
Qed.

(** ** The spiral point by point *)

Lemma comprehension_lift_exact {A B} (e : A -> outcome B) (h : A -> B)
    (l : list A) (g : RNG) :
  (forall v, In v l -> e v = Return (h v)) ->
  comprehension (fun v => lift (e v)) l g = (Return (map h l), g).
Proof.
  induction l as [|v l IH]; intros Hl; cbn [comprehension map].
  - reflexivity.
  - unfold bind at 1. unfold lift at 1. rewrite (Hl v (or_introl eq_refl)).
    unfold bind. rewrite IH; [reflexivity|].
    intros w Hw. apply Hl. now right.
Qed.

Lemma range_nth (a b : Z) (k : nat) :
  (k < Z.to_nat (b - a))%nat ->
  nth_error (range a b) k = Some (a + Z.of_nat k).
Proof.
  intros H. unfold range. rewrite nth_error_map, nth_error_seq.
  destruct (Nat.ltb_spec k (Z.to_nat (b - a))); [reflexivity | lia].
Qed.

Lemma spiral_t_exact (s : float) (N i : Z) :
  5 <= i < 5 + N / 2 -> N / 2 + 4 < float_overflow ->
  spiral_t s N i
  = Return (s * (float_of_int i / float_of_int (N / 2)))%float.
Proof.
  intros Hi HN. unfold spiral_t.
  rewrite float_returns by lia. cbn [obind].
  rewrite truediv_returns by lia. reflexivity.
Qed.

Section SpiralPoints.

Variables math_cos math_sin : float -> float.

Abbreviation x := (spiral_x math_cos) (only parsing).
Abbreviation y := (spiral_y math_sin) (only parsing).

(** Within the range of convertible integers both comprehensions are
    plain maps over the index range. *)
Lemma spiral_exact (N : Z) (g : RNG) :
  N / 2 + 4 < float_overflow ->
  spiral math_cos math_sin N g
  = (Return
       (mkGraph N
          (map (fun i =>
                  let t := (10.0 * (float_of_int i / float_of_int (N / 2)))%float in
                  ((x t + 0.5)%float, (y t + 0.5)%float))
               (range 5 (5 + N / 2))
           ++ map (fun i =>
                     let t := (-10.0 * (float_of_int i / float_of_int (N / 2)))%float in
                     ((y t + 0.5)%float, (x t + 0.5)%float))
                  (range 5 (5 + N / 2)))
          (list_mul 0 (N / 2) ++ list_mul 1 (N / 2))),
     g).
Proof.
  intros HN. unfold spiral, bind. change (5 + 0) with 5.
  rewrite comprehension_lift_exact
    with (h := fun i =>
                 let t := (10.0 * (float_of_int i / float_of_int (N / 2)))%float in
                 ((x t + 0.5)%float, (y t + 0.5)%float)).
  2:{ intros i Hi. apply range_In in Hi. unfold spiral_arm0.
      rewrite spiral_t_exact by lia. reflexivity. }
  rewrite comprehension_lift_exact
    with (h := fun i =>
                 let t := (-10.0 * (float_of_int i / float_of_int (N / 2)))%float in
                 ((y t + 0.5)%float, (x t + 0.5)%float)).
  2:{ intros i Hi. apply range_In in Hi. unfold spiral_arm1.
      rewrite spiral_t_exact by lia. reflexivity. }
  reflexivity.
Qed.

(** X7.  The spiral point by point.  When [N // 2 + 4] converts to a
    float and [0 <= k < N // 2], point [k] of [spiral(N)] is
    [(x(t) + 0.5, y(t) + 0.5)] with [t = 10.0 * (float(5 + k) / (N // 2))]
    and has label 0, and point [N // 2 + k] is [(y(-t) + 0.5, x(-t) + 0.5)]
    taken at [-10.0 * (float(5 + k) / (N // 2))] and has label 1, where
    [x(t) = t * cos(t) / 20.0] and [y(t) = t * sin(t) / 20.0]. *)
Theorem spiral_point_by_point (N k : Z) (g : RNG) :
  N / 2 + 4 < float_overflow ->
  0 <= k < N / 2 ->
  exists G,
    returns (spiral math_cos math_sin N) g G
    /\ (let t := (10.0 * (float_of_int (5 + k) / float_of_int (N / 2)))%float in
        nth_error (Graph_X G) (Z.to_nat k)
        = Some ((t * math_cos t / 20.0 + 0.5)%float,
                (t * math_sin t / 20.0 + 0.5)%float))
    /\ nth_error (Graph_y G) (Z.to_nat k) = Some 0
    /\ (let t := (-10.0 * (float_of_int (5 + k) / float_of_int (N / 2)))%float in
        nth_error (Graph_X G) (Z.to_nat (N / 2 + k))
        = Some ((t * math_sin t / 20.0 + 0.5)%float,
                (t * math_cos t / 20.0 + 0.5)%float))
    /\ nth_error (Graph_y G) (Z.to_nat (N / 2 + k)) = Some 1.
Proof.
  intros HN Hk. eexists. split; [exists g; apply spiral_exact; exact HN|].
  cbn [Graph_X Graph_y]. cbv zeta. unfold list_mul.
  assert (Hlen : forall A (h : Z -> A),
             length (map h (range 5 (5 + N / 2))) = Z.to_nat (N / 2)).
  { intros A h. rewrite length_map, range_length. f_equal. lia. }
  repeat split.
  - rewrite nth_error_app1 by (rewrite Hlen; lia).
    rewrite nth_error_map, range_nth by lia.
    cbn [option_map]. rewrite Z2Nat.id by lia. reflexivity.
  - rewrite nth_error_app1 by (rewrite repeat_length; lia).
    apply nth_error_repeat. lia.
  - rewrite nth_error_app2 by (rewrite Hlen; lia).
    rewrite Hlen.
    replace (Z.to_nat (N / 2 + k) - Z.to_nat (N / 2))%nat with (Z.to_nat k) by lia.
    rewrite nth_error_map, range_nth by lia.
    cbn [option_map]. rewrite Z2Nat.id by lia. reflexivity.
  - rewrite nth_error_app2 by (rewrite repeat_length; lia).
    rewrite repeat_length.
    replace (Z.to_nat (N / 2 + k) - Z.to_nat (N / 2))%nat with (Z.to_nat k) by lia.
    apply nth_error_repeat. lia.
Qed.

(** X8.  What [spiral(N)] can do, for every integer [N]: it returns when
    [N // 2 + 4] converts to a float and raises [OverflowError] otherwise;
    it never raises [ZeroDivisionError], and in either case it draws
    nothing from the random source. *)
Theorem spiral_returns_or_overflows (N : Z) (g : RNG) :
  (N / 2 + 4 < float_overflow
   /\ exists G, spiral math_cos math_sin N g = (Return G, g))
  \/ (float_overflow <= N / 2 + 4
      /\ spiral math_cos math_sin N g = (Raise OverflowError, g)).
Proof.
  destruct (Z_lt_le_dec (N / 2 + 4) float_overflow) as [H|H].
  - left. split; [exact H|]. eexists. apply spiral_exact. exact H.
  - right. split; [exact H|]. now apply spiral_overflows.
Qed.

(** X9.  For [N >= 0] in the range of convertible integers, [spiral(N)]
    always has as many labels as points, and the stored count equals that
    number exactly when [N] is even. *)
Theorem spiral_count_matches_iff_even (N : Z) (g : RNG) :
  0 <= N -> N / 2 + 4 < float_overflow ->
  exists G,
    returns (spiral math_cos math_sin N) g G
    /\ length (Graph_X G) = length (Graph_y G)
    /\ (Z.of_nat (length (Graph_X G)) = Graph_N G <-> Z.even N = true).
Proof.
  intros HN Hc.
  destruct (spiral_returns math_cos math_sin N g Hc) as (X & E & L).
  eexists. split; [exists g; exact E|]. cbn [Graph_N Graph_X Graph_y].
  assert (0 <= N / 2) by (apply Z.div_pos; lia).
  split.
  - unfold list_mul. now rewrite L, length_app, !repeat_length.
  - rewrite L. pose proof (Z.div_mod N 2 ltac:(lia)) as D.
    assert (P : N mod 2 = Z.b2z (Z.odd N))
      by (now rewrite <- Z.bit0_mod, Z.bit0_odd).
    rewrite <- Z.negb_odd. destruct (Z.odd N); cbn in P |- *; split;
      intros; try discriminate; lia.
Qed.

(** X10.  The invariant every generator of the registry keeps, for every
    integer [N]: a returned [Graph] stores [N] itself and has exactly one
    label per point.  (The call returns whenever [N // 2 + 4] converts to
    a float.) *)
Theorem registry_graphs_pair_labels_with_points (name : string)
    (f : Z -> M Graph) (N : Z) (g : RNG) :
  In (name, f) (datasets math_cos math_sin) ->
  (forall G, returns (f N) g G ->
             Graph_N G = N /\ length (Graph_X G) = length (Graph_y G))
  /\ (N / 2 + 4 < float_overflow -> exists G, returns (f N) g G).
Proof.
  intros Hf.
  assert (Hcases : (exists y1, f = labelled y1) \/ f = spiral math_cos math_sin).
  { registry_cases Hf; [left; eexists; reflexivity .. | now right]. }
  destruct Hcases as [(y1 & ->)| ->].
  - destruct (labelled_pointwise (fun _ _ => True) y1 N g)
      as (G & Hret & HN & LX & Ly & _); [auto|].
    split; [|eauto].
    intros G' Hret'. rewrite (returns_unique _ _ _ _ Hret' Hret).
    split; [exact HN | now rewrite LX, Ly].
  - split.
    + intros G (g' & E).
      destruct (Z_lt_le_dec (N / 2 + 4) float_overflow) as [Hc|Hc];
        [|rewrite spiral_overflows in E by exact Hc; discriminate].
      destruct (spiral_returns math_cos math_sin N g Hc) as (X & E' & L).
      rewrite E' in E. injection E as <- _.
      cbn [Graph_N Graph_X Graph_y]. split; [reflexivity|].
      unfold list_mul. now rewrite L, length_app, !repeat_length.
    + intros Hc. eexists. exists g. apply spiral_exact. exact Hc.
Qed.

End SpiralPoints.

(** ** Further instances *)

Lemma make_pts_continues_at_2_1 :
  0 <= 2 /\ 0 <= 1
  /\ exists X1 g1 X2 g2 g3,
       make_pts 2 (replay [0.1; 0.2; 0.3; 0.4; 0.5; 0.6]%float) = (Return X1, g1)
       /\ make_pts 1 g1 = (Return X2, g2)
       /\ make_pts (2 + 1) (replay [0.1; 0.2; 0.3; 0.4; 0.5; 0.6]%float)
          = (Return (X1 ++ X2), g3)
       /\ forall k, g3 k = g2 k.
Proof.
  split; [lia|]. split; [lia|].
  apply (make_pts_continues 2 1); lia.
Defined.

Lemma sampled_points_in_unit_square_at_circle_2 :
  In circle [simple; diag; split; xor; circle]
  /\ (forall k : nat, in_unit ((fun _ => 0.25%float) k) = true)
  /\ exists G,
       returns (circle 2) (fun _ => 0.25%float) G
       /\ Forall (fun p => in_unit (fst p) = true /\ in_unit (snd p) = true)
                 (Graph_X G).
Proof.
  assert (Hin : In circle [simple; diag; split; xor; circle])
    by (do 4 right; left; reflexivity).
  assert (Hg : forall k : nat, in_unit ((fun _ => 0.25%float) k) = true)
    by (intros k; reflexivity).
  split; [exact Hin|]. split; [exact Hg|].
  apply (sampled_points_in_unit_square circle 2 _ Hin Hg).
Defined.

Lemma sampled_rules_extend_at_simple_1_2 :
  In simple [simple; diag; split; xor; circle]
  /\ 0 <= 1 /\ 0 <= 2
  /\ exists G G',
       returns (simple 1) (replay [0.3; 0.9; 0.7; 0.1; 0.5; 0.5]%float) G
       /\ returns (simple (1 + 2)) (replay [0.3; 0.9; 0.7; 0.1; 0.5; 0.5]%float) G'
       /\ firstn (Z.to_nat 1) (Graph_X G') = Graph_X G
       /\ firstn (Z.to_nat 1) (Graph_y G') = Graph_y G.
Proof.
  assert (Hin : In simple [simple; diag; split; xor; circle])
    by (left; reflexivity).
  split; [exact Hin|]. split; [lia|]. split; [lia|].
  apply (sampled_rules_extend simple 1 2 _ Hin); lia.
Defined.

Lemma spiral_point_by_point_at_6_1 :
  6 / 2 + 4 < float_overflow
  /\ 0 <= 1 < 6 / 2
  /\ exists G,
       returns (spiral (fun t => t) (fun t => t) 6) (replay []) G
       /\ nth_error (Graph_X G) (Z.to_nat 1)
          = Some ((20 * 20 / 20 + 0.5)%float, (20 * 20 / 20 + 0.5)%float)
       /\ nth_error (Graph_y G) (Z.to_nat 1) = Some 0
       /\ nth_error (Graph_X G) (Z.to_nat (6 / 2 + 1))
          = Some ((-20 * -20 / 20 + 0.5)%float, (-20 * -20 / 20 + 0.5)%float)
       /\ nth_error (Graph_y G) (Z.to_nat (6 / 2 + 1)) = Some 1.
Proof.
  assert (Hc : 6 / 2 + 4 < float_overflow) by reflexivity.
  assert (Hk : 0 <= 1 < 6 / 2) by (cbn; lia).
  split; [exact Hc|]. split; [exact Hk|].
  exact (spiral_point_by_point (fun t => t) (fun t => t) 6 1 (replay []) Hc Hk).
Defined.

Lemma spiral_count_matches_iff_even_at_6 :
  0 <= 6
  /\ 6 / 2 + 4 < float_overflow
  /\ exists G,
       returns (spiral (fun t => t) (fun t => t) 6) (replay []) G
       /\ length (Graph_X G) = length (Graph_y G)
       /\ (Z.of_nat (length (Graph_X G)) = Graph_N G <-> Z.even 6 = true).
Proof.
  split; [lia|]. split; [reflexivity|].
  apply (spiral_count_matches_iff_even (fun t => t) (fun t => t) 6); [lia | reflexivity].
Defined.

Lemma registry_graphs_pair_labels_with_points_at_diag_5 :
  In ("Diag"%string, diag) (datasets (fun t => t) (fun t => t))
  /\ (forall G,
        returns (diag 5) (replay []) G ->
        Graph_N G = 5 /\ length (Graph_X G) = length (Graph_y G))
  /\ (5 / 2 + 4 < float_overflow -> exists G, returns (diag 5) (replay []) G).
Proof.
  assert (Hin : In ("Diag"%string, diag) (datasets (fun t => t) (fun t => t)))
    by (right; left; reflexivity).
  split; [exact Hin|].
  apply (registry_graphs_pair_labels_with_points _ _ "Diag" diag 5 (replay []) Hin).
Defined.

(** ** The registry as a relation *)

(** X13.  Subscripting [datasets] finds exactly its entries: [datasets[name]]
    is [f] if and only if [(name, f)] is one of the six items, so no name
    is shadowed by another and nothing else can be looked up. *)
Theorem registry_lookup_iff_entry (math_cos math_sin : float -> float)
    (name : string) (f : Z -> M Graph) :
  getitem (datasets math_cos math_sin) name = Return f
  <-> In (name, f) (datasets math_cos math_sin).
Proof.
  split.
  - unfold datasets. cbn [getitem In].
    repeat match goal with
           | |- context [String.eqb ?k name] =>
               destruct (String.eqb_spec k name) as [<-|_];
               [intros [= <-]; tauto|]
           end.
    discriminate.
  - intros Hf. registry_cases Hf; reflexivity.
Qed.
